(** * scripts/generate-pr-help.js: the PR help text generator

    A shallow embedding of [generateHelpText] and of the command-line entry
    path of [scripts/generate-pr-help.js], with the properties of the
    generated markdown document.

    JavaScript strings are sequences of UTF-16 code units, and that is how
    they are modelled: [Array.prototype.sort] without a comparator and
    [String.prototype.startsWith] both work on code units. *)

From Stdlib Require Import String Ascii SpecFloat DecimalString DecimalNat.
From stdpp Require Import base tactics option list sorting numbers.

Set Warnings "-register-all".
Local Open Scope N_scope.

(** ** Strings *)

(** A string value: its UTF-16 code units, each below 2^16. *)
Abbreviation jsstring := (list N).

Module Literal.

(** The bytes of a source-file literal (the file is UTF-8). *)
Definition bytes (s : string) : list N :=
  List.map N_of_ascii (list_ascii_of_string s).

(** The escape sequences the script uses in its template literals:
    [\n] is a line feed, and a backslash before a character that starts no
    escape sequence (the script has only the backtick) stands for the
    character itself. *)
Fixpoint unescape (bs : list N) : list N :=
  match bs with
  | 92 :: 110 :: r => 10 :: unescape r
  | 92 :: c :: r => c :: unescape r
  | c :: r => c :: unescape r
  | [] => []
  end.

(** The code units of a code point: itself in the basic plane, a
    surrogate pair above it. *)
Definition units (cp : N) : list N :=
  if cp <? 65536 then [cp]
  else [55296 + (cp - 65536) / 1024; 56320 + (cp - 65536) mod 1024].

(** UTF-8 to UTF-16.  The literals of the script are well-formed UTF-8; a
    truncated sequence ends the decoding. *)
Fixpoint utf16 (bs : list N) : jsstring :=
  match bs with
  | [] => []
  | b0 :: r0 =>
    if b0 <? 128 then b0 :: utf16 r0
    else if b0 <? 224 then
      match r0 with
      | b1 :: r1 => units ((b0 - 192) * 64 + (b1 - 128)) ++ utf16 r1
      | _ => []
      end
    else if b0 <? 240 then
      match r0 with
      | b1 :: b2 :: r2 =>
        units ((b0 - 224) * 4096 + (b1 - 128) * 64 + (b2 - 128)) ++ utf16 r2
      | _ => []
      end
    else
      match r0 with
      | b1 :: b2 :: b3 :: r3 =>
        units ((b0 - 240) * 262144 + (b1 - 128) * 4096
               + (b2 - 128) * 64 + (b3 - 128)) ++ utf16 r3
      | _ => []
      end
  end.

(** A quoted string literal ['...'] without escapes. *)
Definition str (s : string) : jsstring := utf16 (bytes s).

(** A template literal [`...`] without substitutions. *)
Definition tpl (s : string) : jsstring := utf16 (unescape (bytes s)).

End Literal.

Import Literal.
Global Arguments str : simpl never.
Global Arguments tpl : simpl never.

(** What a stream receives: bytes. *)
Abbreviation octets := (list N).

(** The bytes a stream receives for a string it is given to write: its
    UTF-8 form, a surrogate pair as the four bytes of its code point, and a
    surrogate that has no partner as U+FFFD. *)
Fixpoint utf8 (s : jsstring) : octets :=
  match s with
  | [] => []
  | u :: r =>
    if u <? 128 then u :: utf8 r
    else if u <? 2048 then [192 + u / 64; 128 + u mod 64] ++ utf8 r
    else if (55296 <=? u) && (u <? 56320) then
      match r with
      | v :: r' =>
        if (56320 <=? v) && (v <? 57344) then
          let cp := 65536 + (u - 55296) * 1024 + (v - 56320) in
          [240 + cp / 262144; 128 + (cp / 4096) mod 64;
           128 + (cp / 64) mod 64; 128 + cp mod 64] ++ utf8 r'
        else [239; 191; 189] ++ utf8 r
      | [] => [239; 191; 189]
      end
    else if (56320 <=? u) && (u <? 57344) then [239; 191; 189] ++ utf8 r
    else [224 + u / 4096; 128 + (u / 64) mod 64; 128 + u mod 64] ++ utf8 r
  end.

(** ** Comparison, [startsWith] and [sort] *)

(** [x < y] on strings (IsLessThan): [x] is a proper prefix of [y], or at the
    first position where they differ the code unit of [x] is the smaller. *)
Fixpoint str_ltb (x y : jsstring) : bool :=
  match x, y with
  | _, [] => false
  | [], _ :: _ => true
  | a :: x', b :: y' =>
    if a <? b then true else if b <? a then false else str_ltb x' y'
  end.

(** SortCompare for two strings and no comparator function. *)
Definition SortCompare (x y : jsstring) : Z :=
  if str_ltb x y then (-1)%Z else if str_ltb y x then 1%Z else 0%Z.

(** [x] may stand before [y] in a sorted array. *)
Definition sort_le (x y : jsstring) : Prop := (SortCompare x y ≤ 0)%Z.

Global Instance sort_le_dec : RelDecision sort_le.
Proof. intros x y. unfold sort_le. apply _. Defined.

(** [Array.prototype.sort()] on an array of strings.  The algorithm is the
    engine's choice (a stable merge sort in V8); the result is the sorted
    permutation, which [sort_unique] shows to be the same for every
    algorithm. *)
Definition sort (l : list jsstring) : list jsstring := merge_sort sort_le l.

(** [s.startsWith(searchString)], from position 0. *)
Fixpoint startsWith (s searchString : jsstring) : bool :=
  match searchString, s with
  | [], _ => true
  | _ :: _, [] => false
  | c :: p, d :: s' => (d =? c) && startsWith s' p
  end.

(** ** Values, errors and the environment *)

(** What [JSON.parse] returns.  An object is the list of its own properties
    in the order [Object.keys] reports them; the names of an object are
    pairwise distinct ([NoDup] of the first components).  A number is never
    inspected by the script. *)
Inductive json :=
| JNull
| JBool (b : bool)
| JNum (x : spec_float)
| JStr (s : jsstring)
| JArr (items : list json)
| JObj (props : list (jsstring * json)).

Inductive error_kind := SystemError | SyntaxError | TypeError.

(** A thrown [Error]; the script reads its [message] only. *)
Record js_error := { kind : error_kind; message : jsstring }.

Inductive completion (A : Type) :=
| Normal (a : A)
| Throw (e : js_error).
Arguments Normal {A} a.
Arguments Throw {A} e.

(** What [JSON.parse(fs.readFileSync(packageJsonPath, 'utf8'))] meets at
    [path.join(__dirname, '..', 'package.json')]. *)
Inductive manifest_file :=
| Unreadable (e : js_error)   (* fs.readFileSync throws *)
| Unparsable (e : js_error)   (* the file is read, JSON.parse throws *)
| Parsed (packageJson : json).

(** The state outside the function: the manifest file and the bytes the
    process has written to its two streams. *)
Record world := {
  manifest : manifest_file;
  stdout : octets;
  stderr : octets;
}.

(** Code that may read or change the world and may throw. *)
Definition M (A : Type) : Type := world → completion A * world.

Definition ret {A} (a : A) : M A := λ w, (Normal a, w).

Definition bind {A B} (m : M A) (k : A → M B) : M B :=
  λ w, match m w with
       | (Normal a, w') => k a w'
       | (Throw e, w') => (Throw e, w')
       end.

(** A computation that touches no state. *)
Definition lift {A} (c : completion A) : M A := λ w, (c, w).

Notation "'let*' x := m 'in' k" := (bind m (λ x, k))
  (at level 10, x name, m at level 100, k at level 200,
   format "'[v' 'let*'  x  :=  m  'in' '/' k ']'").

(** [JSON.parse(fs.readFileSync(packageJsonPath, 'utf8'))]. *)
Definition JSON_parse_readFileSync : M json :=
  λ w, match manifest w with
       | Unreadable e => (Throw e, w)
       | Unparsable e => (Throw e, w)
       | Parsed packageJson => (Normal packageJson, w)
       end.

(** The messages of the two [TypeError]s the function can raise (the text
    is V8's; nothing below depends on it). *)
Definition null_property_error : js_error :=
  {| kind := TypeError;
     message := str "Cannot read properties of null (reading 'scripts')" |}.

Definition to_object_error : js_error :=
  {| kind := TypeError;
     message := str "Cannot convert undefined or null to object" |}.

(** [packageJson.scripts]; [None] is [undefined].  Reading a property of
    [null] throws.  A string, a number, a boolean and an array have no
    property of that name, and neither has [Object.prototype]. *)
Definition get_scripts (packageJson : json) : completion (option json) :=
  match packageJson with
  | JNull => Throw null_property_error
  | JObj props => Normal (snd <$> List.find (λ p, bool_decide (p.1 = str "scripts")) props)
  | _ => Normal None
  end.

(** The decimal name of an index. *)
Definition ToString (i : nat) : jsstring :=
  str (DecimalString.NilEmpty.string_of_uint (Nat.to_uint i)).

(** [Object.keys(O)]: [undefined] and [null] throw; an object has its
    property names; an array and a string have their indices; a number and
    a boolean have no own property. *)
Definition Object_keys (O : option json) : completion (list jsstring) :=
  match O with
  | None | Some JNull => Throw to_object_error
  | Some (JObj props) => Normal (props.*1)
  | Some (JArr items) => Normal (ToString <$> seq 0 (length items))
  | Some (JStr s) => Normal (ToString <$> seq 0 (length s))
  | Some (JBool _) | Some (JNum _) => Normal []
  end.

(** [array.forEach(body)] for a body that updates one local variable. *)
Definition forEach {A S} (array : list A) (body : A → S → S) (s : S) : S :=
  fold_left (λ s a, body a s) array s.

(** ** The static tables *)

(** Command descriptions mapping: an object literal, as the list of its
    properties. *)
Definition COMMAND_DESCRIPTIONS : list (jsstring * jsstring) := [
  (str "fix:dict", str "Normalize cspell front matter in markdown files");
  (str "fix:expired", str "Delete expired content files");
  (str "fix:filenames", str "Rename files with underscores to kebab-case");
  (str "fix:format", str "Format code and trim trailing spaces");
  (str "fix:htmltest-config", str "Update htmltest configuration");
  (str "fix:i18n:status", str "Update internationalization status");
  (str "fix:i18n:new", str "Handle new internationalization files");
  (str "fix:i18n", str "Run all i18n fixes (new + status)");
  (str "fix:markdown", str "Fix markdown linting issues and trailing spaces");
  (str "fix:refcache:refresh", str "Refresh reference cache (prune entries)");
  (str "fix:refcache", str "Prune reference cache and check links");
  (str "fix:submodule", str "Pin submodules and update semconv mounts");
  (str "fix:text", str "Fix textlint issues");
  (str "fix:all", str "Run all fix commands (except i18n)");
  (str "fix", str "Run all fix commands")
].

Record usage_example := {
  command : jsstring;
  description : jsstring;
  when : jsstring;
}.

(** Common usage examples *)
Definition USAGE_EXAMPLES : list usage_example := [
  {|
    command := str "/fix:format";
    description := str "Format all code files and fix spacing issues";
    when := str "Use when CI shows formatting errors";
  |};
  {|
    command := str "/fix:markdown";
    description := str "Fix markdown linting issues";
    when := str "Use when markdownlint checks fail";
  |};
  {|
    command := str "/fix:refcache";
    description := str "Update the reference cache for link checking";
    when := str "Use when link checker shows stale cached results";
  |};
  {|
    command := str "/fix:submodule";
    description := str "Update git submodules to latest versions";
    when := str "Use when submodule updates are needed";
  |}
].

Record troubleshooting_tip := {
  issue : jsstring;
  solution : jsstring;
}.

(** Troubleshooting tips *)
Definition TROUBLESHOOTING : list troubleshooting_tip := [
  {|
    issue := str "Command had no effect";
    solution :=
      str "The command may have run successfully but found nothing to fix. Check the workflow run logs for details.";
  |};
  {|
    issue := str "Command failed with errors";
    solution :=
      str "Check the workflow run logs for specific error messages. You may need to fix issues manually.";
  |};
  {|
    issue := str "Patch too large";
    solution :=
      str "The changes exceed 1MB limit. Break into smaller fixes or apply changes manually.";
  |};
  {|
    issue := str "Patch failed to apply";
    solution :=
      str "Conflicts with recent commits. Pull latest changes and run the fix locally.";
  |}
].

(** [COMMAND_DESCRIPTIONS[cmd]]; [None] is [undefined].  The names of
    [Object.prototype] are looked up too in the script, but the function
    asks for names that start with [fix:] only, and none of them does. *)
Definition COMMAND_DESCRIPTIONS_at (cmd : jsstring) : option jsstring :=
  snd <$> List.find (λ p, bool_decide (p.1 = cmd)) COMMAND_DESCRIPTIONS.

(** [a || b] with [a] a string or [undefined]: the empty string and
    [undefined] are falsy. *)
Definition or_else (a : option jsstring) (b : jsstring) : jsstring :=
  match a with
  | Some (c :: s) => c :: s
  | Some [] | None => b
  end.

(** ** The generator *)

Definition generateHelpText : M jsstring :=
  (* Read package.json *)
  let* packageJson := JSON_parse_readFileSync in

  (* Extract all fix:* commands *)
  let* scripts := lift (get_scripts packageJson) in
  let* keys := lift (Object_keys scripts) in
  let fixCommands :=
    sort (filter (λ script, startsWith script (str "fix:")) keys) in

  (* Generate markdown *)
  let markdown := tpl "## 🤖 PR Actions Bot - Help\n\n" in
  let markdown := markdown ++ tpl "This bot can automatically fix common issues in your PR by responding to slash commands.\n\n" in

  (* Available Commands *)
  let markdown := markdown ++ tpl "### 📋 Available Commands\n\n" in
  let markdown := markdown ++ tpl "Comment on this PR with any of these commands:\n\n" in

  let markdown := forEach fixCommands (λ cmd markdown,
    let description := or_else (COMMAND_DESCRIPTIONS_at cmd) (str "Run fix command") in
    markdown ++ (tpl "- \`/" ++ cmd ++ tpl "\` - " ++ description ++ tpl "\n")
  ) markdown in

  (* Usage Examples *)
  let markdown := markdown ++ tpl "\n### 💡 Usage Examples\n\n" in
  let markdown := forEach USAGE_EXAMPLES (λ example markdown,
    let markdown := markdown ++ (tpl "**\`" ++ command example ++ tpl "\`**\n") in
    let markdown := markdown ++ (tpl "- " ++ description example ++ tpl "\n") in
    markdown ++ (tpl "- _" ++ when example ++ tpl "_\n\n")
  ) markdown in

  (* How it works *)
  let markdown := markdown ++ tpl "### ⚙️ How It Works\n\n" in
  let markdown := markdown ++ tpl "1. Comment with a \`/fix:*\` command on this PR\n" in
  let markdown := markdown ++ tpl "2. The bot runs the command in a secure environment\n" in
  let markdown := markdown ++ tpl "3. If changes are needed, they're automatically committed to your branch\n" in
  let markdown := markdown ++ tpl "4. You'll get a success/failure notification\n\n" in

  (* Troubleshooting *)
  let markdown := markdown ++ tpl "### 🔧 Troubleshooting\n\n" in
  let markdown := forEach TROUBLESHOOTING (λ tip markdown,
    let markdown := markdown ++ (tpl "**" ++ issue tip ++ tpl "**\n") in
    markdown ++ (solution tip ++ tpl "\n\n")
  ) markdown in

  (* Documentation *)
  let markdown := markdown ++ tpl "### 📚 Documentation\n\n" in
  let markdown := markdown ++ tpl "- [Contributing Guide](https://opentelemetry.io/docs/contributing/)\n" in
  let markdown := markdown ++ tpl "- [Project README](../CONTRIBUTING.md)\n" in
  let markdown := markdown ++ tpl "- [PR Actions Workflow](.github/workflows/pr-actions.yml)\n\n" in

  let markdown := markdown ++ tpl "---\n" in
  let markdown := markdown ++ tpl "_💬 Need more help? Ask in the PR comments or reach out to maintainers._\n" in

  ret markdown.

(** ** The command-line entry path *)

(** [console.log(text)]: the text and a line feed, written to the standard
    output.  A single argument is written as it is. *)
Definition console_log (text : jsstring) : M unit :=
  λ w, (Normal tt,
        {| manifest := manifest w;
           stdout := stdout w ++ utf8 (text ++ tpl "\n");
           stderr := stderr w |}).

(** [console.error(a, b)] with two strings, the first without a format
    specifier: both, separated by a space, and a line feed, written to the
    standard error. *)
Definition console_error (a b : jsstring) : M unit :=
  λ w, (Normal tt,
        {| manifest := manifest w;
           stdout := stdout w;
           stderr := stderr w ++ utf8 (a ++ str " " ++ b ++ tpl "\n") |}).

(** The block under [require.main === module], from the point where it is
    reached: the final world and the exit status, [1] from
    [process.exit(1)] and [0] when the script runs to its end. *)
Definition main (w : world) : world * Z :=
  match generateHelpText w with
  | (Normal helpText, w1) =>
    let '(_, w2) := console_log helpText w1 in (w2, 0%Z)
  | (Throw error, w1) =>
    let '(_, w2) := console_error (str "Error generating help text:") (message error) w1 in
    (w2, 1%Z)
  end.

(** How [node] starts the script.  Before the first statement runs, Node
    reads the nearest [package.json] above the script to decide how to load
    the file; in a checkout without [scripts/package.json] that is the very
    manifest the function reads.  When Node cannot parse that file the
    process ends there, and when the file says ["type": "module"] the script
    is run as an ES module and line 8 throws, [require] being undefined.
    Either way Node writes a trace of its own to the standard error, the
    exit status is 1, and the entry block is never reached.  Otherwise the
    script is loaded as a CommonJS module, lines 8 to 134 have no effect on
    the world, and the entry block runs.  Which of the two happens depends
    on the installation and is an input of the model. *)
Inductive node_start :=
| LoadFailure (trace : octets)
| RunsAsMain.

(** [node scripts/generate-pr-help.js]: the final world and the exit
    status of the process. *)
Definition node_process (start : node_start) (w : world) : world * Z :=
  match start with
  | LoadFailure trace =>
    ({| manifest := manifest w;
        stdout := stdout w;
        stderr := stderr w ++ trace |}, 1%Z)
  | RunsAsMain => main w
  end.

(** ** The layout of the document *)

(** The names [Object.keys(packageJson.scripts)] yields for a manifest. *)
Definition manifest_keys (m : manifest_file) : completion (list jsstring) :=
  match m with
  | Unreadable e | Unparsable e => Throw e
  | Parsed packageJson =>
    match get_scripts packageJson with
    | Normal scripts => Object_keys scripts
    | Throw e => Throw e
    end
  end.

(** The value of [fixCommands] for the names [keys]. *)
Definition fixCommands_of (keys : list jsstring) : list jsstring :=
  sort (filter (λ script, startsWith script (str "fix:")) keys).

(** The line of one command, with the description [d]. *)
Definition command_line_with (cmd d : jsstring) : jsstring :=
  tpl "- \`/" ++ cmd ++ tpl "\` - " ++ d ++ tpl "\n".

Definition command_line (cmd : jsstring) : jsstring :=
  command_line_with cmd
    (or_else (COMMAND_DESCRIPTIONS_at cmd) (str "Run fix command")).

(** The three lines of a usage example and the two of a tip. *)
Definition example_block (example : usage_example) : jsstring :=
  (tpl "**\`" ++ command example ++ tpl "\`**\n")
  ++ (tpl "- " ++ description example ++ tpl "\n")
  ++ (tpl "- _" ++ when example ++ tpl "_\n\n").

Definition tip_block (tip : troubleshooting_tip) : jsstring :=
  (tpl "**" ++ issue tip ++ tpl "**\n") ++ (solution tip ++ tpl "\n\n").

Definition header_line : jsstring := tpl "## 🤖 PR Actions Bot - Help\n".
Definition footer_line : jsstring :=
  tpl "_💬 Need more help? Ask in the PR comments or reach out to maintainers._\n".

Definition available_commands_header : jsstring := tpl "### 📋 Available Commands\n".
Definition usage_examples_header : jsstring := tpl "### 💡 Usage Examples\n".
Definition how_it_works_header : jsstring := tpl "### ⚙️ How It Works\n".
Definition troubleshooting_header : jsstring := tpl "### 🔧 Troubleshooting\n".
Definition documentation_header : jsstring := tpl "### 📚 Documentation\n".

(** What stands between the section headers. *)
Definition introduction : jsstring :=
  tpl "\nThis bot can automatically fix common issues in your PR by responding to slash commands.\n\n".
Definition commands_lead : jsstring :=
  tpl "\nComment on this PR with any of these commands:\n\n".
Definition how_it_works_body : jsstring :=
  tpl "\n1. Comment with a \`/fix:*\` command on this PR\n2. The bot runs the command in a secure environment\n3. If changes are needed, they're automatically committed to your branch\n4. You'll get a success/failure notification\n\n".
Definition documentation_body : jsstring :=
  tpl "\n- [Contributing Guide](https://opentelemetry.io/docs/contributing/)\n- [Project README](../CONTRIBUTING.md)\n- [PR Actions Workflow](.github/workflows/pr-actions.yml)\n\n---\n".

(** Everything before the command list, and everything after it. *)
Definition preamble : jsstring :=
  header_line ++ introduction ++ available_commands_header ++ commands_lead.

Definition static_sections : jsstring :=
  tpl "\n" ++ usage_examples_header ++ tpl "\n"
  ++ concat (example_block <$> USAGE_EXAMPLES)
  ++ how_it_works_header ++ how_it_works_body
  ++ troubleshooting_header ++ tpl "\n"
  ++ concat (tip_block <$> TROUBLESHOOTING)
  ++ documentation_header ++ documentation_body
  ++ footer_line.

(** The document that lists the commands [cmds]. *)
Definition document (cmds : list jsstring) : jsstring :=
  preamble ++ concat (command_line <$> cmds) ++ static_sections.

(** The positions at which [needle] occurs in [hay], counted from [i]. *)
Fixpoint occurrences_from (i : nat) (needle hay : jsstring) : list nat :=
  (if startsWith hay needle then [i] else [])
  ++ match hay with
     | [] => []
     | _ :: hay' => occurrences_from (S i) needle hay'
     end.

Definition occurrences (needle hay : jsstring) : list nat :=
  occurrences_from 0 needle hay.

(** The scripts mapping of a manifest, when it has one. *)
Definition scripts_mapping (m : manifest_file) : option (list (jsstring * json)) :=
  match m with
  | Parsed packageJson =>
    match get_scripts packageJson with
    | Normal (Some (JObj props)) => Some props
    | _ => None
    end
  | _ => None
  end.

(** The manifests for which the function throws, with the error thrown:
    the file cannot be read, its content cannot be parsed, it holds [null],
    or it has no [scripts] property or [null] for it. *)
Inductive manifest_rejected : manifest_file → js_error → Prop :=
| rejected_unreadable e : manifest_rejected (Unreadable e) e
| rejected_unparsable e : manifest_rejected (Unparsable e) e
| rejected_null : manifest_rejected (Parsed JNull) null_property_error
| rejected_no_scripts packageJson :
    get_scripts packageJson = Normal None →
    manifest_rejected (Parsed packageJson) to_object_error
| rejected_null_scripts packageJson :
    get_scripts packageJson = Normal (Some JNull) →
    manifest_rejected (Parsed packageJson) to_object_error.

(** ** Sample manifests *)

Definition a_world (m : manifest_file) : world :=
  {| manifest := m; stdout := []; stderr := [] |}.

(** [{"name": "site", "scripts": {"other": "hugo", "fix:b": "b", "fix:a": "a"}}] *)
Definition ab_scripts : list (jsstring * json) :=
  [(str "other", JStr (str "hugo"));
   (str "fix:b", JStr (str "b"));
   (str "fix:a", JStr (str "a"))].
Definition ab_manifest : json :=
  JObj [(str "name", JStr (str "site")); (str "scripts", JObj ab_scripts)].

(** The same names in another order and with other values. *)
Definition ba_scripts : list (jsstring * json) :=
  [(str "fix:a", JNull); (str "other", JBool true); (str "fix:b", JArr [])].
Definition ba_manifest : json := JObj [(str "scripts", JObj ba_scripts)].

(** [{"scripts": {"build": "hugo", "fix": "npm run fix:all",
                  "fix:text": "textlint --fix", "fix:zeta": "zeta"}}] *)
Definition fix_scripts : list (jsstring * json) :=
  [(str "build", JStr (str "hugo"));
   (str "fix", JStr (str "npm run fix:all"));
   (str "fix:text", JStr (str "textlint --fix"));
   (str "fix:zeta", JStr (str "zeta"))].
Definition fix_manifest : json := JObj [(str "scripts", JObj fix_scripts)].

(** [{"scripts": {"build": "hugo"}}]: no fix command. *)
Definition build_manifest : json :=
  JObj [(str "scripts", JObj [(str "build", JStr (str "hugo"))])].

(** [{"name": "site", "scripts": ["fix:format"]}]: the scripts are an
    array, not a mapping. *)
Definition array_manifest : json :=
  JObj [(str "name", JStr (str "site"));
        (str "scripts", JArr [JStr (str "fix:format")])].

(** [{"name": "site"}]: no scripts at all. *)
Definition bare_manifest : json := JObj [(str "name", JStr (str "site"))].

Definition ENOENT : js_error :=
  {| kind := SystemError;
     message := str "ENOENT: no such file or directory, open 'package.json'" |}.

(** [{"scripts": {"fix:zeta": 0, "test": "jest", "fix:text": false}}] *)
Definition zeta_text_scripts : list (jsstring * json) :=
  [(str "fix:zeta", JNum (S754_zero false));
   (str "test", JStr (str "jest"));
   (str "fix:text", JBool false)].
Definition zeta_text_manifest : json := JObj [(str "scripts", JObj zeta_text_scripts)].

(** [{"scripts": {"fix:a": "a", "fix:b": "b"}}] *)
Definition a_b_manifest : json :=
  JObj [(str "scripts",
         JObj [(str "fix:a", JStr (str "a")); (str "fix:b", JStr (str "b"))])].

(** A manifest with one script, whose name holds a line feed:
    [{"scripts": {"fix:a` - Run fix command\n- `/fix:b": "x"}}] *)
Definition forged_manifest : json :=
  JObj [(str "scripts",
         JObj [(tpl "fix:a\` - Run fix command\n- \`/fix:b", JStr (str "x"))])].

(** The three i18n scripts, in the order of the description table. *)
Definition i18n_scripts : list (jsstring * json) :=
  [(str "fix:i18n:status", JStr (str "s"));
   (str "fix:i18n:new", JStr (str "n"));
   (str "fix:i18n", JStr (str "i"))].
Definition i18n_manifest : json := JObj [(str "scripts", JObj i18n_scripts)].


(** ** Auxiliary notions *)

(** The number of line feeds of a text. *)
Definition line_feeds (s : jsstring) : nat := length (filter (λ c, c = 10) s).

(** Another sorting algorithm for the same comparison, to compare [sort]
    with: insertion sort. *)
Fixpoint insert_sorted (x : jsstring) (l : list jsstring) : list jsstring :=
  match l with
  | [] => [x]
  | y :: l' =>
    if decide (sort_le x y) then x :: y :: l' else y :: insert_sorted x l'
  end.

Definition insertion_sort (l : list jsstring) : list jsstring :=
  foldr insert_sorted [] l.

(** * Properties *)

(** ** Literals *)

Example str_ascii : str "fix:" = [102; 105; 120; 58].
Proof. reflexivity. Qed.

Example str_surrogate_pair : str "🤖" = [55358; 56598].
Proof. reflexivity. Qed.

Example tpl_escapes : tpl "- \`/x\`\n" = [45; 32; 96; 47; 120; 96; 10].
Proof. reflexivity. Qed.

(** On the literals of the script [utf8] gives back the bytes of the file;
    a surrogate without its partner is written as U+FFFD. *)
Example utf8_header :
  utf8 (tpl "## 🤖 PR ⚙️") = Literal.bytes "## 🤖 PR ⚙️".
Proof. reflexivity. Qed.

Example utf8_lone_surrogate :
  utf8 [102; 55358; 120] = [102; 239; 191; 189; 120].
Proof. reflexivity. Qed.

(** The lines of a block, written in one piece. *)
Lemma example_block_layout example :
  example_block example
  = tpl "**\`" ++ command example ++ tpl "\`**\n- " ++ description example
    ++ tpl "\n- _" ++ when example ++ tpl "_\n\n".
Proof. unfold example_block. rewrite <- !app_assoc. reflexivity. Qed.

Lemma tip_block_layout tip :
  tip_block tip = tpl "**" ++ issue tip ++ tpl "**\n" ++ solution tip ++ tpl "\n\n".
Proof. unfold tip_block. rewrite <- !app_assoc. reflexivity. Qed.

(** ** The order of strings *)

Definition str_lt (x y : jsstring) : Prop := str_ltb x y = true.

Lemma str_ltb_irrefl x : str_ltb x x = false.
Proof. induction x as [|a x IH]; simpl; [done|]. by rewrite N.ltb_irrefl. Qed.

Lemma str_ltb_asym x y : str_ltb x y = true → str_ltb y x = false.
Proof.
  revert y. induction x as [|a x IH]; intros [|b y]; simpl; try done.
  do 2 case N.ltb_spec; try done; try lia. auto.
Qed.

Lemma str_ltb_trans x y z :
  str_ltb x y = true → str_ltb y z = true → str_ltb x z = true.
Proof.
  revert y z.
  induction x as [|a x IH]; intros [|b y] [|c z]; simpl; try done.
  repeat case N.ltb_spec; try done; try lia. eauto.
Qed.

Lemma str_ltb_trichotomy x y :
  str_ltb x y = false → str_ltb y x = false → x = y.
Proof.
  revert y. induction x as [|a x IH]; intros [|b y]; simpl; try done.
  do 2 case N.ltb_spec; try done. intros ?? Hxy Hyx.
  f_equal; [lia|auto].
Qed.

Lemma sort_le_iff x y : sort_le x y ↔ str_ltb y x = false.
Proof.
  unfold sort_le, SortCompare.
  destruct (str_ltb x y) eqn:Hxy.
  - by rewrite (str_ltb_asym _ _ Hxy).
  - by destruct (str_ltb y x).
Qed.

Global Instance sort_le_refl : Reflexive sort_le.
Proof. intros x. apply sort_le_iff, str_ltb_irrefl. Qed.

Global Instance sort_le_total : Total sort_le.
Proof.
  intros x y. rewrite !sort_le_iff.
  destruct (str_ltb y x) eqn:Hyx; [right|by left].
  by apply str_ltb_asym.
Qed.

Global Instance sort_le_antisymm : AntiSymm (=) sort_le.
Proof. intros x y. rewrite !sort_le_iff. intros. by apply str_ltb_trichotomy. Qed.

Global Instance sort_le_trans : Transitive sort_le.
Proof.
  intros x y z. rewrite !sort_le_iff. intros Hyx Hzy.
  destruct (str_ltb z x) eqn:Hzx; [|done].
  destruct (str_ltb x y) eqn:Hxy.
  - by rewrite (str_ltb_trans _ _ _ Hzx Hxy) in Hzy.
  - rewrite (str_ltb_trichotomy _ _ Hxy Hyx) in Hzx. congruence.
Qed.

Lemma sort_le_lt x y : sort_le x y → x ≠ y → str_lt x y.
Proof.
  rewrite sort_le_iff. intros Hyx Hne. unfold str_lt.
  destruct (str_ltb x y) eqn:Hxy; [done|].
  destruct Hne. by apply str_ltb_trichotomy.
Qed.

(** ** [sort] *)

Lemma sort_Permutation l : sort l ≡ₚ l.
Proof. apply merge_sort_Permutation. Qed.

Lemma sort_Sorted l : Sorted sort_le (sort l).
Proof. apply (Sorted_merge_sort sort_le). Qed.

(** The result of [sort] does not depend on the algorithm: every sorted
    permutation of the array is the same list. *)
Lemma sort_unique l l' : l' ≡ₚ l → Sorted sort_le l' → l' = sort l.
Proof.
  intros Hp Hs. apply (Sorted_unique sort_le); [done|apply sort_Sorted|].
  by rewrite sort_Permutation.
Qed.

Lemma sort_Permutation_eq l1 l2 : l1 ≡ₚ l2 → sort l1 = sort l2.
Proof.
  intros Hp. apply sort_unique; [|apply sort_Sorted].
  by rewrite sort_Permutation.
Qed.

Lemma elem_of_sort x l : x ∈ sort l ↔ x ∈ l.
Proof. by rewrite sort_Permutation. Qed.

Lemma NoDup_sort l : NoDup l → NoDup (sort l).
Proof. by rewrite sort_Permutation. Qed.

(** Distinct strings end up in strictly ascending order. *)
Lemma sort_strict l : NoDup l → StronglySorted str_lt (sort l).
Proof.
  intros Hnd. apply NoDup_sort in Hnd.
  pose proof (Sorted_StronglySorted _ _ (sort_Sorted l)) as Hs.
  induction Hs as [|x k Hk IH Hx]; [constructor|].
  apply list.NoDup_cons in Hnd as [Hx' Hnd].
  constructor; [auto|].
  rewrite list.Forall_forall in Hx |- *. intros y Hy.
  apply sort_le_lt; [auto|]. intros ->. by apply Hx'.
Qed.

(** ** [startsWith] and the selection of commands *)

Lemma startsWith_prefix s p : startsWith s p = true ↔ p `prefix_of` s.
Proof.
  revert s. induction p as [|c p IH]; intros [|d s]; simpl.
  - split; [intros _; apply prefix_nil|done].
  - split; [intros _; apply prefix_nil|done].
  - split; [done|]. intros H. by apply prefix_nil_not in H.
  - rewrite andb_true_iff, N.eqb_eq, IH. split.
    + intros [-> ?]. by apply prefix_cons.
    + intros H. split; [symmetry; by eapply prefix_cons_inv_1|by eapply prefix_cons_inv_2].
Qed.

Lemma elem_of_fixCommands_of k keys :
  k ∈ fixCommands_of keys ↔ k ∈ keys ∧ str "fix:" `prefix_of` k.
Proof.
  unfold fixCommands_of.
  rewrite elem_of_sort, list_elem_of_filter, Is_true_true, startsWith_prefix.
  tauto.
Qed.

Lemma fixCommands_of_Permutation keys1 keys2 :
  keys1 ≡ₚ keys2 → fixCommands_of keys1 = fixCommands_of keys2.
Proof. intros Hp. apply sort_Permutation_eq. by rewrite Hp. Qed.

Lemma fixCommands_of_strict keys :
  NoDup keys → StronglySorted str_lt (fixCommands_of keys).
Proof. intros Hnd. by apply sort_strict, list.NoDup_filter. Qed.

(** The decimal name of an index starts with a digit, so it is no command. *)
Lemma revapp_nonnil d acc : acc ≠ Decimal.Nil → Decimal.revapp d acc ≠ Decimal.Nil.
Proof. revert acc. induction d; intros acc Hacc; simpl; auto. Qed.

Lemma to_uint_nonnil i : Nat.to_uint i ≠ Decimal.Nil.
Proof.
  rewrite Unsigned.to_uint_alt. unfold Decimal.rev.
  assert (Unsigned.to_lu i ≠ Decimal.Nil) as Hlu.
  { destruct i as [|i]; simpl; [done|]. by destruct (Unsigned.to_lu i). }
  destruct (Unsigned.to_lu i); [done|simpl; by apply revapp_nonnil..].
Qed.

Lemma ToString_not_fix i : startsWith (ToString i) (str "fix:") = false.
Proof.
  unfold ToString. pose proof (to_uint_nonnil i) as Hnil.
  by destruct (Nat.to_uint i).
Qed.

Lemma fixCommands_of_indices n : fixCommands_of (ToString <$> seq 0 n) = [].
Proof.
  unfold fixCommands_of. generalize 0%nat.
  induction n as [|n IH]; intros i; [done|].
  cbn [seq fmap list_fmap]. rewrite filter_cons_False; [apply IH|].
  by rewrite Is_true_false, ToString_not_fix.
Qed.

(** ** The shape of the result *)

Lemma forEach_append {A} (f : A → jsstring) array body (s : jsstring) :
  (∀ a s, body a s = s ++ f a) →
  forEach array body s = s ++ concat (f <$> array).
Proof.
  intros Hbody. unfold forEach. revert s.
  induction array as [|a array IH]; intros s; simpl.
  - by rewrite app_nil_r.
  - by rewrite IH, Hbody, <- app_assoc.
Qed.

(** The function leaves the world as it is; it throws what reading the
    names of the scripts throws, and otherwise returns the document that
    lists the selected commands. *)
Lemma generateHelpText_run w :
  generateHelpText w =
  (match manifest_keys (manifest w) with
   | Normal keys => Normal (document (fixCommands_of keys))
   | Throw e => Throw e
   end, w).
Proof.
  unfold generateHelpText, bind, lift, JSON_parse_readFileSync, manifest_keys.
  destruct (manifest w) as [e|e|packageJson]; [done..|].
  destruct (get_scripts packageJson) as [scripts|e]; [|done].
  destruct (Object_keys scripts) as [keys|e]; [|done].
  unfold ret. do 2 f_equal. cbv zeta.
  fold (fixCommands_of keys).
  rewrite (forEach_append command_line) by done.
  rewrite (forEach_append example_block)
    by (intros; unfold example_block; by rewrite <- !app_assoc).
  rewrite (forEach_append tip_block)
    by (intros; unfold tip_block; by rewrite <- !app_assoc).
  unfold document. rewrite <- !app_assoc.
  generalize (concat (command_line <$> fixCommands_of keys)).
  intros lines. vm_compute. reflexivity.
Qed.

(** ** The description table *)

Lemma find_key_Some {B} (l : list (jsstring * B)) k v :
  NoDup l.*1 → (k, v) ∈ l →
  snd <$> List.find (λ p, bool_decide (p.1 = k)) l = Some v.
Proof.
  induction l as [|[k' v'] l IH]; intros Hnd Hin.
  - by apply elem_of_nil in Hin.
  - cbn [fmap list_fmap fst] in Hnd.
    apply list.NoDup_cons in Hnd as [Hk' Hnd].
    apply elem_of_cons in Hin as [Heq|Hin]; simpl.
    + simplify_eq. by rewrite bool_decide_eq_true_2.
    + rewrite bool_decide_eq_false_2; [by apply IH|].
      intros ->. apply Hk', list_elem_of_fmap. by exists (k, v).
Qed.

Lemma find_key_None {B} (l : list (jsstring * B)) k :
  k ∉ l.*1 → snd <$> List.find (λ p, bool_decide (p.1 = k)) l = None.
Proof.
  induction l as [|[k' v'] l IH]; intros Hk; [done|].
  cbn [fmap list_fmap fst] in Hk. apply not_elem_of_cons in Hk as [Hne Hk].
  simpl. rewrite bool_decide_eq_false_2 by done. by apply IH.
Qed.

Lemma COMMAND_DESCRIPTIONS_NoDup : NoDup COMMAND_DESCRIPTIONS.*1.
Proof. apply (bool_decide_unpack _). by vm_compute. Qed.

Lemma COMMAND_DESCRIPTIONS_truthy :
  Forall (λ p, p.2 ≠ []) COMMAND_DESCRIPTIONS.
Proof. apply (bool_decide_unpack _). by vm_compute. Qed.

(** A name of the table is rendered with its description, any other name
    with the fallback text. *)
Lemma command_line_present cmd d :
  (cmd, d) ∈ COMMAND_DESCRIPTIONS → command_line cmd = command_line_with cmd d.
Proof.
  intros Hin. unfold command_line, COMMAND_DESCRIPTIONS_at.
  rewrite (find_key_Some _ _ d COMMAND_DESCRIPTIONS_NoDup Hin).
  pose proof COMMAND_DESCRIPTIONS_truthy as Ht.
  rewrite list.Forall_forall in Ht. specialize (Ht _ Hin).
  by destruct d.
Qed.

Lemma command_line_absent cmd :
  cmd ∉ COMMAND_DESCRIPTIONS.*1 →
  command_line cmd = command_line_with cmd (str "Run fix command").
Proof.
  intros Hk. unfold command_line, COMMAND_DESCRIPTIONS_at.
  by rewrite (find_key_None _ _ Hk).
Qed.

(** The line of a command is not the line the name [fix] would have. *)
Lemma command_line_not_fix cmd :
  str "fix:" `prefix_of` cmd → command_line cmd ≠ command_line (str "fix").
Proof.
  intros [rest ->] Heq.
  apply (f_equal (λ line, line !! 7%nat)) in Heq.
  vm_compute in Heq. discriminate.
Qed.

Lemma generateHelpText_Normal w out :
  (generateHelpText w).1 = Normal out →
  ∃ keys, manifest_keys (manifest w) = Normal keys
          ∧ out = document (fixCommands_of keys).
Proof.
  rewrite generateHelpText_run. simpl.
  destruct (manifest_keys (manifest w)) as [keys|e]; [|done].
  intros [= <-]. by exists keys.
Qed.

Lemma manifest_keys_mapping w packageJson props :
  manifest w = Parsed packageJson →
  get_scripts packageJson = Normal (Some (JObj props)) →
  manifest_keys (manifest w) = Normal props.*1.
Proof. intros Hm Hs. unfold manifest_keys. by rewrite Hm, Hs. Qed.

(** ** The command list *)

(** C1: the command list of the document holds exactly the names of the
    scripts mapping that begin with [fix:], in ascending code-unit order,
    each once; for the names [fix:a], [fix:b] and [other] these are the two
    lines of [fix:a] and [fix:b], in this order. *)
Theorem fix_commands_listed w packageJson props :
  manifest w = Parsed packageJson →
  get_scripts packageJson = Normal (Some (JObj props)) →
  NoDup props.*1 →
  ∃ cmds,
    (generateHelpText w).1
    = Normal (preamble ++ concat (command_line <$> cmds) ++ static_sections)
    ∧ (∀ k, k ∈ cmds ↔ k ∈ props.*1 ∧ str "fix:" `prefix_of` k)
    ∧ StronglySorted str_lt cmds
    ∧ NoDup cmds
    ∧ (props.*1 ≡ₚ [str "fix:a"; str "fix:b"; str "other"] →
       cmds = [str "fix:a"; str "fix:b"]
       ∧ concat (command_line <$> cmds)
         = tpl "- \`/fix:a\` - Run fix command\n- \`/fix:b\` - Run fix command\n").
Proof.
  intros Hm Hs Hnd. exists (fixCommands_of props.*1).
  rewrite generateHelpText_run, (manifest_keys_mapping _ _ _ Hm Hs).
  split_and!.
  - done.
  - intros k. apply elem_of_fixCommands_of.
  - by apply fixCommands_of_strict.
  - by apply NoDup_sort, list.NoDup_filter.
  - intros Hp. rewrite (fixCommands_of_Permutation _ _ Hp). by vm_compute.
Qed.

Lemma fix_commands_listed_witness :
  NoDup ab_scripts.*1
  ∧ (generateHelpText (a_world (Parsed ab_manifest))).1
    = Normal (preamble
              ++ tpl "- \`/fix:a\` - Run fix command\n- \`/fix:b\` - Run fix command\n"
              ++ static_sections).
Proof.
  assert (NoDup ab_scripts.*1) as Hnd
    by (apply (bool_decide_unpack _); vm_compute; exact I).
  split; [exact Hnd|].
  destruct (fix_commands_listed (a_world (Parsed ab_manifest)) ab_manifest
              ab_scripts eq_refl eq_refl Hnd)
    as (cmds & Hout & _ & _ & _ & Hab).
  destruct Hab as [_ Hlines].
  - apply (bool_decide_unpack _). vm_compute. exact I.
  - rewrite Hout, Hlines. reflexivity.
Defined.

(** C2: the line of a selected command holds the description the table
    maps its name to, and the text [Run fix command] when the table has no
    such name. *)
Theorem command_description_rendered w keys :
  manifest_keys (manifest w) = Normal keys →
  ∃ lines,
    (generateHelpText w).1 = Normal (preamble ++ concat lines ++ static_sections)
    ∧ Forall2 (λ cmd line,
        (∀ d, (cmd, d) ∈ COMMAND_DESCRIPTIONS →
              line = tpl "- \`/" ++ cmd ++ tpl "\` - " ++ d ++ tpl "\n")
        ∧ (cmd ∉ COMMAND_DESCRIPTIONS.*1 →
           line = tpl "- \`/" ++ cmd ++ tpl "\` - " ++ str "Run fix command"
                  ++ tpl "\n"))
      (fixCommands_of keys) lines.
Proof.
  intros Hk. exists (command_line <$> fixCommands_of keys).
  rewrite generateHelpText_run, Hk. split; [done|].
  apply Forall2_fmap_r, Forall_Forall2_diag, list.Forall_forall.
  intros cmd _. split.
  - apply command_line_present.
  - apply command_line_absent.
Qed.

Lemma command_description_rendered_witness :
  manifest_keys (Parsed fix_manifest) = Normal fix_scripts.*1
  ∧ (generateHelpText (a_world (Parsed fix_manifest))).1
    = Normal (preamble
              ++ tpl "- \`/fix:text\` - Fix textlint issues\n- \`/fix:zeta\` - Run fix command\n"
              ++ static_sections).
Proof.
  split; [reflexivity|].
  destruct (command_description_rendered (a_world (Parsed fix_manifest))
              fix_scripts.*1 eq_refl) as (lines & Hout & HF).
  apply Forall2_cons_inv_l in HF as (l1 & lines1 & Htext & HF & ->).
  apply Forall2_cons_inv_l in HF as (l2 & lines2 & Hzeta & HF & ->).
  apply Forall2_nil_inv_l in HF as ->.
  destruct Htext as [Htext _]. destruct Hzeta as [_ Hzeta].
  rewrite Hout, (Htext (str "Fix textlint issues")), Hzeta.
  - reflexivity.
  - apply (bool_decide_unpack _). vm_compute. exact I.
  - apply (bool_decide_unpack _). vm_compute. exact I.
Defined.

(** ** Errors and the exit status *)

Lemma manifest_keys_Throw m e :
  manifest_keys m = Throw e ↔ manifest_rejected m e.
Proof.
  split.
  - destruct m as [e'|e'|packageJson]; cbn [manifest_keys].
    + intros [= ->]. apply rejected_unreadable.
    + intros [= ->]. apply rejected_unparsable.
    + destruct (get_scripts packageJson) as [scripts|e'] eqn:Hs.
      * destruct scripts as [[]|]; cbn [Object_keys]; intros [= <-].
        -- by apply rejected_null_scripts.
        -- by apply rejected_no_scripts.
      * intros [= ->].
        destruct packageJson; cbn [get_scripts] in Hs; try discriminate Hs.
        injection Hs as <-. apply rejected_null.
  - intros [| | |packageJson Hs|packageJson Hs]; cbn [manifest_keys get_scripts];
      try reflexivity; by rewrite Hs.
Qed.

Lemma error_prefix (s : jsstring) :
  str "Error generating help text:" ++ str " " ++ s
  = str "Error generating help text: " ++ s.
Proof. by vm_compute. Qed.

Lemma main_run w :
  main w =
  match manifest_keys (manifest w) with
  | Normal keys =>
    ({| manifest := manifest w;
        stdout := stdout w ++ utf8 (document (fixCommands_of keys) ++ tpl "\n");
        stderr := stderr w |}, 0%Z)
  | Throw e =>
    ({| manifest := manifest w;
        stdout := stdout w;
        stderr := stderr w
                  ++ utf8 (str "Error generating help text: " ++ message e
                           ++ tpl "\n") |}, 1%Z)
  end.
Proof.
  unfold main. rewrite generateHelpText_run.
  destruct (manifest_keys (manifest w)) as [keys|e];
    cbv [console_log console_error]; cbn [manifest stdout stderr]; [done|].
  by rewrite error_prefix.
Qed.

(** C3, as the code has it.  When Node cannot load the script, the process
    ends with Node's trace on the standard error and status 1, and the
    function is not called.  When the entry block runs: if the manifest
    cannot be read or parsed, holds [null], or has no [scripts] property or
    [null] for it, the function throws, and the block writes
    "Error generating help text: " with the message of that error to the
    standard error, nothing to the standard output, and exits with status
    1; otherwise the function returns and the block writes the document and
    a line feed to the standard output, nothing to the standard error, and
    the status is 0.  A [scripts] value that is a string, a number, a
    boolean or an array is such a success, with an empty command list. *)
Theorem main_outcome start w :
  match start with
  | LoadFailure trace =>
    node_process start w =
    ({| manifest := manifest w;
        stdout := stdout w;
        stderr := stderr w ++ trace |}, 1%Z)
  | RunsAsMain =>
    ((∃ e, manifest_rejected (manifest w) e
           ∧ generateHelpText w = (Throw e, w)
           ∧ node_process start w =
             ({| manifest := manifest w;
                 stdout := stdout w;
                 stderr := stderr w
                           ++ utf8 (str "Error generating help text: "
                                    ++ message e ++ tpl "\n") |}, 1%Z))
     ∨ (∃ out, (∀ e, ¬ manifest_rejected (manifest w) e)
               ∧ generateHelpText w = (Normal out, w)
               ∧ node_process start w =
                 ({| manifest := manifest w;
                     stdout := stdout w ++ utf8 (out ++ tpl "\n");
                     stderr := stderr w |}, 0%Z)))
    ∧ (∀ packageJson scripts,
         manifest w = Parsed packageJson →
         get_scripts packageJson = Normal (Some scripts) →
         scripts ≠ JNull →
         scripts_mapping (manifest w) = None →
         generateHelpText w = (Normal (document []), w)
         ∧ node_process start w =
           ({| manifest := manifest w;
               stdout := stdout w ++ utf8 (document [] ++ tpl "\n");
               stderr := stderr w |}, 0%Z))
  end.
Proof.
  destruct start as [trace|]; [reflexivity|]. cbn [node_process]. split.
  - rewrite main_run, generateHelpText_run.
    destruct (manifest_keys (manifest w)) as [keys|e] eqn:Hk.
    + right. eexists. split_and!; [|done..].
      intros e He. apply manifest_keys_Throw in He. congruence.
    + left. exists e. by rewrite <- manifest_keys_Throw.
  - intros packageJson scripts Hm Hs Hnull Hmap.
    rewrite main_run, generateHelpText_run.
    unfold manifest_keys, scripts_mapping in *.
    rewrite Hm in *. rewrite Hs in *.
    assert (fixCommands_of [] = []) as Hnil by reflexivity.
    destruct scripts; cbn [Object_keys].
    + by destruct Hnull.
    + rewrite Hnil. by split.
    + rewrite Hnil. by split.
    + rewrite fixCommands_of_indices. by split.
    + rewrite fixCommands_of_indices. by split.
    + discriminate Hmap.
Qed.

Lemma main_outcome_witness :
  manifest_rejected (Parsed bare_manifest) to_object_error
  ∧ node_process RunsAsMain (a_world (Parsed bare_manifest)) =
    ({| manifest := Parsed bare_manifest;
        stdout := [];
        stderr := utf8 (str "Error generating help text: Cannot convert undefined or null to object"
                        ++ tpl "\n") |}, 1%Z)
  ∧ node_process RunsAsMain (a_world (Unreadable ENOENT)) =
    ({| manifest := Unreadable ENOENT;
        stdout := [];
        stderr := utf8 (str "Error generating help text: ENOENT: no such file or directory, open 'package.json'"
                        ++ tpl "\n") |}, 1%Z)
  ∧ node_process RunsAsMain (a_world (Parsed build_manifest)) =
    ({| manifest := Parsed build_manifest;
        stdout := utf8 (document [] ++ tpl "\n");
        stderr := [] |}, 0%Z).
Proof.
  assert (manifest_rejected (Parsed bare_manifest) to_object_error) as Hbare
    by (apply rejected_no_scripts; reflexivity).
  split_and!.
  - exact Hbare.
  - destruct (main_outcome RunsAsMain (a_world (Parsed bare_manifest)))
      as [[(e & He & _ & Hmain)|(out & Hok & _)] _].
    + rewrite Hmain. apply manifest_keys_Throw in He.
      vm_compute in He. injection He as <-. vm_compute. reflexivity.
    + destruct (Hok to_object_error Hbare).
  - destruct (main_outcome RunsAsMain (a_world (Unreadable ENOENT)))
      as [[(e & He & _ & Hmain)|(out & Hok & _)] _].
    + rewrite Hmain. apply manifest_keys_Throw in He.
      vm_compute in He. injection He as <-. vm_compute. reflexivity.
    + destruct (Hok ENOENT (rejected_unreadable ENOENT)).
  - destruct (main_outcome RunsAsMain (a_world (Parsed build_manifest)))
      as [[(e & He & _)|(out & _ & Hgen & Hmain)] _].
    + apply manifest_keys_Throw in He. vm_compute in He. discriminate He.
    + rewrite Hmain. rewrite generateHelpText_run in Hgen.
      vm_compute in Hgen. injection Hgen as <-. vm_compute. reflexivity.
Defined.

(** The claim C3 fails for a manifest whose [scripts] are an array: it has
    no scripts mapping, and yet, the entry block running, nothing is
    thrown, nothing is written to the standard error, and the exit status
    is 0. *)
Lemma array_scripts_accepted :
  scripts_mapping (Parsed array_manifest) = None
  ∧ generateHelpText (a_world (Parsed array_manifest))
    = (Normal (document []), a_world (Parsed array_manifest))
  ∧ node_process RunsAsMain (a_world (Parsed array_manifest)) =
    ({| manifest := Parsed array_manifest;
        stdout := utf8 (document [] ++ tpl "\n");
        stderr := [] |}, 0%Z).
Proof. split_and!; by vm_compute. Qed.

(** ** The static lists *)

Lemma USAGE_EXAMPLES_NoDup : NoDup USAGE_EXAMPLES.
Proof.
  apply (NoDup_fmap_1 command), (bool_decide_unpack _). by vm_compute.
Qed.

Lemma TROUBLESHOOTING_NoDup : NoDup TROUBLESHOOTING.
Proof.
  apply (NoDup_fmap_1 issue), (bool_decide_unpack _). by vm_compute.
Qed.

(** C4: after the command list the document holds the block of every usage
    example and then, further down, the block of every troubleshooting tip,
    in the order of the two lists; the records of each list are pairwise
    distinct, and in that part of the document each block occurs at one
    position only, the positions ascending along the lists. *)
Theorem static_lists_rendered w out :
  (generateHelpText w).1 = Normal out →
  ∃ lines positions,
    out = preamble ++ lines ++ static_sections
    ∧ static_sections
      = tpl "\n" ++ usage_examples_header ++ tpl "\n"
        ++ concat (example_block <$> USAGE_EXAMPLES)
        ++ how_it_works_header ++ how_it_works_body
        ++ troubleshooting_header ++ tpl "\n"
        ++ concat (tip_block <$> TROUBLESHOOTING)
        ++ documentation_header ++ documentation_body ++ footer_line
    ∧ NoDup USAGE_EXAMPLES
    ∧ NoDup TROUBLESHOOTING
    ∧ (λ block, occurrences block static_sections)
        <$> ((example_block <$> USAGE_EXAMPLES) ++ (tip_block <$> TROUBLESHOOTING))
      = (λ position, [position]) <$> positions
    ∧ StronglySorted lt positions.
Proof.
  intros (keys & _ & ->)%generateHelpText_Normal.
  exists (concat (command_line <$> fixCommands_of keys)).
  exists [24; 130; 219; 340; 709; 841; 967; 1070]%nat.
  split_and!.
  - done.
  - done.
  - apply USAGE_EXAMPLES_NoDup.
  - apply TROUBLESHOOTING_NoDup.
  - by vm_compute.
  - apply (bool_decide_unpack _). by vm_compute.
Qed.

Lemma static_lists_rendered_witness :
  (generateHelpText (a_world (Parsed build_manifest))).1 = Normal (document [])
  ∧ ∃ lines positions,
    document [] = preamble ++ lines ++ static_sections
    ∧ static_sections
      = tpl "\n" ++ usage_examples_header ++ tpl "\n"
        ++ concat (example_block <$> USAGE_EXAMPLES)
        ++ how_it_works_header ++ how_it_works_body
        ++ troubleshooting_header ++ tpl "\n"
        ++ concat (tip_block <$> TROUBLESHOOTING)
        ++ documentation_header ++ documentation_body ++ footer_line
    ∧ NoDup USAGE_EXAMPLES
    ∧ NoDup TROUBLESHOOTING
    ∧ (λ block, occurrences block static_sections)
        <$> ((example_block <$> USAGE_EXAMPLES) ++ (tip_block <$> TROUBLESHOOTING))
      = (λ position, [position]) <$> positions
    ∧ StronglySorted lt positions.
Proof.
  assert ((generateHelpText (a_world (Parsed build_manifest))).1
          = Normal (document [])) as Hout
    by (rewrite generateHelpText_run; reflexivity).
  split; [exact Hout|].
  exact (static_lists_rendered _ _ Hout).
Defined.

(** ** Determinism, dependence on the names only, and purity *)

(** C5: two runs that meet the same manifest return the same string (or
    throw the same error), whatever else differs in their worlds. *)
Theorem generateHelpText_deterministic w1 w2 :
  manifest w1 = manifest w2 →
  (generateHelpText w1).1 = (generateHelpText w2).1.
Proof. intros Hm. rewrite !generateHelpText_run. simpl. by rewrite Hm. Qed.

Lemma generateHelpText_deterministic_witness :
  (generateHelpText (a_world (Parsed fix_manifest))).1
  = (generateHelpText {| manifest := Parsed fix_manifest;
                         stdout := str "earlier output";
                         stderr := str "earlier diagnostics" |}).1.
Proof. apply generateHelpText_deterministic. reflexivity. Defined.

(** C6: two manifests whose scripts mappings have the same set of names
    give the same document, whatever the values and the order of the
    names. *)
Theorem only_key_names_matter w1 w2 packageJson1 packageJson2 props1 props2 :
  manifest w1 = Parsed packageJson1 →
  manifest w2 = Parsed packageJson2 →
  get_scripts packageJson1 = Normal (Some (JObj props1)) →
  get_scripts packageJson2 = Normal (Some (JObj props2)) →
  NoDup props1.*1 →
  NoDup props2.*1 →
  (∀ k, k ∈ props1.*1 ↔ k ∈ props2.*1) →
  (generateHelpText w1).1 = (generateHelpText w2).1.
Proof.
  intros Hm1 Hm2 Hs1 Hs2 Hnd1 Hnd2 Hk.
  rewrite !generateHelpText_run.
  rewrite (manifest_keys_mapping _ _ _ Hm1 Hs1).
  rewrite (manifest_keys_mapping _ _ _ Hm2 Hs2). simpl.
  by rewrite (fixCommands_of_Permutation _ _ (NoDup_Permutation _ _ Hnd1 Hnd2 Hk)).
Qed.

Lemma only_key_names_matter_witness :
  (generateHelpText (a_world (Parsed ab_manifest))).1
  = (generateHelpText (a_world (Parsed ba_manifest))).1.
Proof.
  apply (only_key_names_matter _ _ ab_manifest ba_manifest ab_scripts ba_scripts);
    try reflexivity.
  - apply (bool_decide_unpack _). vm_compute. exact I.
  - apply (bool_decide_unpack _). vm_compute. exact I.
  - intros k. unfold ab_scripts, ba_scripts. cbn [fmap list_fmap fst].
    rewrite !elem_of_cons, !elem_of_nil. tauto.
Defined.

(** C7: the function leaves the world as it found it (the manifest file
    and both streams), and what it returns or throws is a function of the
    manifest alone. *)
Theorem generateHelpText_pure :
  (∀ w, (generateHelpText w).2 = w)
  ∧ ∃ f : manifest_file → completion jsstring,
      ∀ w, (generateHelpText w).1 = f (manifest w).
Proof.
  split.
  - intros w. by rewrite generateHelpText_run.
  - exists (λ m, match manifest_keys m with
                 | Normal keys => Normal (document (fixCommands_of keys))
                 | Throw e => Throw e
                 end).
    intros w. by rewrite generateHelpText_run.
Qed.

(** The entry path, in contrast, always writes to one of the streams. *)
Lemma utf8_line_length (s : jsstring) : (0 < length (utf8 (s ++ tpl "\n")))%nat.
Proof.
  change (tpl "\n") with [10].
  destruct s as [|u r]; [simpl; lia|]. cbn [app utf8].
  repeat case_match; cbn [app length]; lia.
Qed.

Lemma main_writes w : (main w).1 ≠ w.
Proof.
  rewrite main_run.
  destruct (manifest_keys (manifest w)) as [keys|e]; cbn [fst]; intros H.
  - apply (f_equal (λ w', length (stdout w'))) in H. cbn [stdout] in H.
    rewrite length_app in H.
    pose proof (utf8_line_length (document (fixCommands_of keys))). lia.
  - apply (f_equal (λ w', length (stderr w'))) in H. cbn [stderr] in H.
    rewrite length_app, !app_assoc in H.
    pose proof (utf8_line_length
                  (str "Error generating help text: " ++ message e)). lia.
Qed.

(** ** The name [fix], manifests without fix commands, and the frame *)

Lemma fixCommands_of_without_fix keys :
  fixCommands_of (filter (λ k, k ≠ str "fix") keys) = fixCommands_of keys.
Proof.
  unfold fixCommands_of. f_equal. rewrite list_filter_filter.
  apply list_filter_iff. intros k. rewrite Is_true_true, startsWith_prefix.
  split; [tauto|]. intros Hp. split; [done|]. intros ->. revert Hp.
  apply (bool_decide_unpack _). by vm_compute.
Qed.

(** C8: the name [fix] is never among the listed commands, although the
    description table has an entry for it: every listed command begins
    with [fix:], no line of the list is the line [fix] would have, and the
    document is the one of the manifest without that name. *)
Theorem fix_without_colon_not_listed w keys :
  manifest_keys (manifest w) = Normal keys →
  COMMAND_DESCRIPTIONS_at (str "fix") = Some (str "Run all fix commands")
  ∧ ∃ cmds,
      (generateHelpText w).1
      = Normal (preamble ++ concat (command_line <$> cmds) ++ static_sections)
      ∧ (∀ cmd, cmd ∈ cmds ↔ cmd ∈ keys ∧ startsWith cmd (str "fix:") = true)
      ∧ (str "fix" ∉ cmds)
      ∧ (command_line (str "fix") ∉ command_line <$> cmds)
      ∧ cmds = fixCommands_of (filter (λ k, k ≠ str "fix") keys).
Proof.
  intros Hk. split; [by vm_compute|].
  exists (fixCommands_of keys).
  rewrite generateHelpText_run, Hk.
  assert (∀ cmd, cmd ∈ fixCommands_of keys → str "fix:" `prefix_of` cmd)
    as Hpre by (intros cmd Hc; apply elem_of_fixCommands_of in Hc; tauto).
  split_and!.
  - done.
  - intros cmd. by rewrite elem_of_fixCommands_of, startsWith_prefix.
  - intros Hfix%Hpre. revert Hfix. apply (bool_decide_unpack _). by vm_compute.
  - intros (cmd & Heq & Hc)%list_elem_of_fmap.
    by apply (command_line_not_fix cmd (Hpre _ Hc)).
  - by rewrite fixCommands_of_without_fix.
Qed.

Lemma fix_without_colon_not_listed_witness :
  str "fix" ∈ fix_scripts.*1
  ∧ (generateHelpText (a_world (Parsed fix_manifest))).1
    = Normal (document [str "fix:text"; str "fix:zeta"]).
Proof.
  split.
  - apply (bool_decide_unpack _). vm_compute. exact I.
  - destruct (fix_without_colon_not_listed (a_world (Parsed fix_manifest))
                fix_scripts.*1 eq_refl) as (_ & cmds & Hout & _ & _ & _ & ->).
    rewrite Hout. vm_compute. reflexivity.
Defined.

Lemma fixCommands_of_none keys :
  (∀ k, k ∈ keys → startsWith k (str "fix:") = false) → fixCommands_of keys = [].
Proof.
  intros Hnone. unfold fixCommands_of.
  replace (filter _ keys) with (@nil jsstring); [done|].
  symmetry. apply elem_of_nil_inv. intros k [Hk Hin]%list_elem_of_filter.
  apply Is_true_true in Hk. by rewrite (Hnone _ Hin) in Hk.
Qed.

(** C9: whenever the scripts of the manifest are a mapping the function
    returns the whole document and throws nothing; with no name that
    begins with [fix:] the command list is empty. *)
Theorem mapping_always_succeeds w packageJson props :
  manifest w = Parsed packageJson →
  get_scripts packageJson = Normal (Some (JObj props)) →
  ∃ lines,
    generateHelpText w = (Normal (preamble ++ lines ++ static_sections), w)
    ∧ lines = concat (command_line <$> fixCommands_of props.*1)
    ∧ ((∀ k, k ∈ props.*1 → startsWith k (str "fix:") = false) → lines = []).
Proof.
  intros Hm Hs. exists (concat (command_line <$> fixCommands_of props.*1)).
  rewrite generateHelpText_run, (manifest_keys_mapping _ _ _ Hm Hs).
  split_and!; [done..|].
  intros Hnone. by rewrite (fixCommands_of_none _ Hnone).
Qed.

Lemma mapping_always_succeeds_witness :
  get_scripts build_manifest
  = Normal (Some (JObj [(str "build", JStr (str "hugo"))]))
  ∧ generateHelpText (a_world (Parsed build_manifest))
    = (Normal (preamble ++ static_sections), a_world (Parsed build_manifest)).
Proof.
  split; [reflexivity|].
  destruct (mapping_always_succeeds (a_world (Parsed build_manifest))
              build_manifest [(str "build", JStr (str "hugo"))]
              eq_refl eq_refl) as (lines & Hout & _ & Hnone).
  rewrite Hout, Hnone; [reflexivity|].
  intros k Hk. cbn [fmap list_fmap fst] in Hk.
  apply list_elem_of_singleton in Hk as ->. by vm_compute.
Defined.

(** C10: every document begins with the header line and ends with the
    footer line and its line feed, and between them the five section
    headers stand in the order Available Commands, Usage Examples, How It
    Works, Troubleshooting, Documentation. *)
Theorem document_frame w out :
  (generateHelpText w).1 = Normal out →
  header_line `prefix_of` out
  ∧ footer_line `suffix_of` out
  ∧ ∃ lines,
      out = header_line ++ introduction
            ++ available_commands_header ++ (commands_lead ++ lines ++ tpl "\n")
            ++ usage_examples_header
            ++ (tpl "\n" ++ concat (example_block <$> USAGE_EXAMPLES))
            ++ how_it_works_header ++ how_it_works_body
            ++ troubleshooting_header
            ++ (tpl "\n" ++ concat (tip_block <$> TROUBLESHOOTING))
            ++ documentation_header ++ documentation_body
            ++ footer_line.
Proof.
  intros (keys & _ & ->)%generateHelpText_Normal.
  unfold document, preamble, static_sections.
  set (lines := concat (command_line <$> fixCommands_of keys)).
  split_and!.
  - rewrite <- !app_assoc. by eexists.
  - rewrite !app_assoc. by eexists.
  - exists lines. by rewrite <- !app_assoc.
Qed.

Lemma document_frame_witness :
  (generateHelpText (a_world (Parsed ab_manifest))).1
  = Normal (document [str "fix:a"; str "fix:b"])
  ∧ header_line `prefix_of` document [str "fix:a"; str "fix:b"]
  ∧ footer_line `suffix_of` document [str "fix:a"; str "fix:b"].
Proof.
  assert ((generateHelpText (a_world (Parsed ab_manifest))).1
          = Normal (document [str "fix:a"; str "fix:b"])) as Hout
    by (rewrite generateHelpText_run; reflexivity).
  destruct (document_frame _ _ Hout) as (Hhead & Hfoot & _).
  exact (conj Hout (conj Hhead Hfoot)).
Defined.

(** ** The sorting algorithm *)

Lemma insert_sorted_Permutation x l : insert_sorted x l ≡ₚ x :: l.
Proof.
  induction l as [|y l IH]; simpl; [done|].
  case_decide; [done|]. by rewrite IH, Permutation_swap.
Qed.

Lemma insertion_sort_Permutation l : insertion_sort l ≡ₚ l.
Proof.
  induction l as [|x l IH]; simpl; [done|].
  by rewrite insert_sorted_Permutation, IH.
Qed.

Lemma insert_sorted_HdRel x y l :
  sort_le y x → HdRel sort_le y l → HdRel sort_le y (insert_sorted x l).
Proof.
  intros Hyx Hy. destruct Hy as [|z l Hz]; simpl; [by constructor|].
  case_decide; by constructor.
Qed.

Lemma insert_sorted_Sorted x l :
  Sorted sort_le l → Sorted sort_le (insert_sorted x l).
Proof.
  induction 1 as [|y l Hl IH Hy]; simpl; [by repeat constructor|].
  case_decide as Hxy.
  - by repeat constructor.
  - constructor; [done|]. apply insert_sorted_HdRel; [|done].
    by destruct (total sort_le x y).
Qed.

Lemma insertion_sort_Sorted l : Sorted sort_le (insertion_sort l).
Proof.
  induction l as [|x l IH]; simpl; [constructor|].
  by apply insert_sorted_Sorted.
Qed.

(** X1: the array [sort()] leaves does not depend on the algorithm of the
    engine: every function that returns a permutation of its argument in
    ascending code-unit order returns what [sort] returns. *)
Theorem sort_algorithm_irrelevant (engine_sort : list jsstring → list jsstring) :
  (∀ l, engine_sort l ≡ₚ l) →
  (∀ l, Sorted sort_le (engine_sort l)) →
  ∀ keys,
    engine_sort (filter (λ script, startsWith script (str "fix:")) keys)
    = fixCommands_of keys.
Proof. intros Hperm Hsorted keys. by apply sort_unique. Qed.

Lemma sort_algorithm_irrelevant_witness :
  (∀ l, insertion_sort l ≡ₚ l)
  ∧ (∀ l, Sorted sort_le (insertion_sort l))
  ∧ insertion_sort
      (filter (λ script, startsWith script (str "fix:")) fix_scripts.*1)
    = fixCommands_of fix_scripts.*1.
Proof.
  split_and!.
  - exact insertion_sort_Permutation.
  - exact insertion_sort_Sorted.
  - exact (sort_algorithm_irrelevant insertion_sort insertion_sort_Permutation
             insertion_sort_Sorted fix_scripts.*1).
Defined.

(** ** Names that do not begin with [fix:] *)

(** X2: the result depends on the names that begin with [fix:] only: two
    manifests that agree on these names give the same document, whatever
    other scripts and other properties they hold. *)
Theorem only_fix_names_matter w1 w2 keys1 keys2 :
  manifest_keys (manifest w1) = Normal keys1 →
  manifest_keys (manifest w2) = Normal keys2 →
  NoDup keys1 →
  NoDup keys2 →
  (∀ k, str "fix:" `prefix_of` k → (k ∈ keys1 ↔ k ∈ keys2)) →
  (generateHelpText w1).1 = (generateHelpText w2).1.
Proof.
  intros Hk1 Hk2 Hnd1 Hnd2 Hfix.
  rewrite !generateHelpText_run, Hk1, Hk2. cbn [fst]. do 2 f_equal.
  apply sort_Permutation_eq, NoDup_Permutation.
  - by apply list.NoDup_filter.
  - by apply list.NoDup_filter.
  - intros k. rewrite !list_elem_of_filter, Is_true_true, startsWith_prefix.
    specialize (Hfix k). tauto.
Qed.

Lemma only_fix_names_matter_witness :
  (generateHelpText (a_world (Parsed fix_manifest))).1
  = (generateHelpText (a_world (Parsed zeta_text_manifest))).1.
Proof.
  apply (only_fix_names_matter _ _ fix_scripts.*1 zeta_text_scripts.*1);
    try reflexivity.
  - apply (bool_decide_unpack _). vm_compute. exact I.
  - apply (bool_decide_unpack _). vm_compute. exact I.
  - intros k Hp. unfold fix_scripts, zeta_text_scripts. cbn [fmap list_fmap fst].
    rewrite !elem_of_cons, !elem_of_nil.
    assert (k ≠ str "build" ∧ k ≠ str "fix" ∧ k ≠ str "test") as (? & ? & ?).
    { split_and!; intros ->; revert Hp;
        apply (bool_decide_unpack _); vm_compute; exact I. }
    tauto.
Defined.

(** ** Names are copied as they are *)

Lemma Normal_inj {A} (a b : A) : Normal a = Normal b → a = b.
Proof. by intros [= ->]. Qed.

Lemma find_key_elem {B} (l : list (jsstring * B)) k v :
  snd <$> List.find (λ p, bool_decide (p.1 = k)) l = Some v → (k, v) ∈ l.
Proof.
  induction l as [|[k' v'] l IH]; simpl; [done|].
  case_bool_decide as Hk; simpl in *.
  - intros [= <-]. subst k'. by left.
  - intros Hfind. right. by apply IH.
Qed.

(** The description of a line is the fallback text or one of the table. *)
Lemma rendered_description cmd :
  or_else (COMMAND_DESCRIPTIONS_at cmd) (str "Run fix command")
  ∈ str "Run fix command" :: COMMAND_DESCRIPTIONS.*2.
Proof.
  unfold COMMAND_DESCRIPTIONS_at.
  destruct (snd <$> List.find _ COMMAND_DESCRIPTIONS) as [d|] eqn:Hfind;
    [|by left].
  apply find_key_elem in Hfind. destruct d as [|c d]; [by left|].
  right. apply list_elem_of_fmap. by exists (cmd, c :: d).
Qed.

(** None of these holds a line feed or a backtick. *)
Lemma rendered_description_plain cmd :
  (10 ∉ or_else (COMMAND_DESCRIPTIONS_at cmd) (str "Run fix command"))
  ∧ (96 ∉ or_else (COMMAND_DESCRIPTIONS_at cmd) (str "Run fix command")).
Proof.
  assert (Forall (λ d : jsstring, (10 ∉ d) ∧ (96 ∉ d))
            (str "Run fix command" :: COMMAND_DESCRIPTIONS.*2)) as Hall
    by (apply (bool_decide_unpack _); by vm_compute).
  rewrite list.Forall_forall in Hall. apply Hall, rendered_description.
Qed.

(** A line ends with its only line feed when the name holds none. *)
Lemma command_line_single cmd :
  10 ∉ cmd → ∃ body, command_line cmd = body ++ [10] ∧ 10 ∉ body.
Proof.
  intros Hcmd. destruct (rendered_description_plain cmd) as [Hd _].
  exists (tpl "- \`/" ++ cmd ++ tpl "\` - "
          ++ or_else (COMMAND_DESCRIPTIONS_at cmd) (str "Run fix command")).
  split.
  - unfold command_line, command_line_with.
    change (tpl "\n") with [10]. by rewrite <- !app_assoc.
  - rewrite !elem_of_app. intros [H|[H|[H|H]]]; [|done| |done].
    + revert H. apply (bool_decide_unpack _). by vm_compute.
    + revert H. apply (bool_decide_unpack _). by vm_compute.
Qed.

(** The name of a line ends at the last backtick of the line. *)
Lemma command_line_last_backtick cmd :
  ∃ rest, command_line cmd = (tpl "- \`/" ++ cmd) ++ 96 :: rest ∧ 96 ∉ rest.
Proof.
  destruct (rendered_description_plain cmd) as [_ Hd].
  exists ([32; 45; 32]
          ++ or_else (COMMAND_DESCRIPTIONS_at cmd) (str "Run fix command")
          ++ [10]).
  split.
  - unfold command_line, command_line_with.
    change (tpl "\n") with [10]. change (tpl "\` - ") with [96; 32; 45; 32].
    by rewrite <- !app_assoc.
  - rewrite !elem_of_app. intros [H|[H|H]]; [|done|].
    + revert H. apply (bool_decide_unpack _). by vm_compute.
    + revert H. apply (bool_decide_unpack _). by vm_compute.
Qed.

Lemma command_line_inj cmd1 cmd2 :
  command_line cmd1 = command_line cmd2 → cmd1 = cmd2.
Proof.
  destruct (command_line_last_backtick cmd1) as (rest1 & -> & H1).
  destruct (command_line_last_backtick cmd2) as (rest2 & -> & H2).
  intros Heq. apply not_elem_of_app_cons_inv_r in Heq as (Heq & _ & _); [|done..].
  by apply app_inv_head in Heq.
Qed.

Lemma command_lines_inj cmds1 cmds2 :
  Forall (λ cmd, 10 ∉ cmd) cmds1 →
  Forall (λ cmd, 10 ∉ cmd) cmds2 →
  concat (command_line <$> cmds1) = concat (command_line <$> cmds2) →
  cmds1 = cmds2.
Proof.
  intros H1. revert cmds2.
  induction H1 as [|c1 cmds1 Hc1 _ IH]; intros cmds2 H2 Heq.
  - destruct H2 as [|c2 cmds2 Hc2 _]; [done|]. exfalso.
    destruct (command_line_single c2 Hc2) as (body & Hline & _).
    cbn [fmap list_fmap concat] in Heq. rewrite Hline in Heq.
    by destruct body.
  - destruct (command_line_single c1 Hc1) as (body1 & Hline1 & Hb1).
    destruct H2 as [|c2 cmds2 Hc2 H2].
    + exfalso. cbn [fmap list_fmap concat] in Heq. rewrite Hline1 in Heq.
      by destruct body1.
    + destruct (command_line_single c2 Hc2) as (body2 & Hline2 & Hb2).
      cbn [fmap list_fmap concat] in Heq.
      pose proof Heq as Heq'. rewrite Hline1, Hline2, <- !app_assoc in Heq'.
      cbn [app] in Heq'.
      apply not_elem_of_app_cons_inv_l in Heq' as (Hb & _ & Hrest); [|done..].
      f_equal.
      * apply command_line_inj. by rewrite Hline1, Hline2, Hb.
      * by apply IH.
Qed.

Lemma document_unfold cmds :
  document cmds = preamble ++ concat (command_line <$> cmds) ++ static_sections.
Proof. reflexivity. Qed.

Lemma document_inj cmds1 cmds2 :
  Forall (λ cmd, 10 ∉ cmd) cmds1 →
  Forall (λ cmd, 10 ∉ cmd) cmds2 →
  document cmds1 = document cmds2 →
  cmds1 = cmds2.
Proof.
  intros H1 H2 Hdoc. rewrite !document_unfold in Hdoc.
  apply command_lines_inj; [done..|].
  exact (app_inv_tail static_sections _ _ (app_inv_head preamble _ _ Hdoc)).
Qed.

(** X3: when no name that begins with [fix:] holds a line feed, the
    document tells which commands the manifest has: two manifests with the
    same document have the same names beginning with [fix:]. *)
Theorem document_determines_commands w1 w2 keys1 keys2 :
  manifest_keys (manifest w1) = Normal keys1 →
  manifest_keys (manifest w2) = Normal keys2 →
  (∀ k, k ∈ keys1 → str "fix:" `prefix_of` k → 10 ∉ k) →
  (∀ k, k ∈ keys2 → str "fix:" `prefix_of` k → 10 ∉ k) →
  (generateHelpText w1).1 = (generateHelpText w2).1 →
  fixCommands_of keys1 = fixCommands_of keys2
  ∧ ∀ k, str "fix:" `prefix_of` k → (k ∈ keys1 ↔ k ∈ keys2).
Proof.
  intros Hk1 Hk2 Hlf1 Hlf2 Hout.
  destruct (generateHelpText_Normal w1 (document (fixCommands_of keys1)))
    as (keys1' & Hk1' & _); [by rewrite generateHelpText_run, Hk1|].
  destruct (generateHelpText_Normal w2 (document (fixCommands_of keys1)))
    as (keys2' & Hk2' & Hdoc);
    [by rewrite <- Hout, generateHelpText_run, Hk1|].
  assert (keys2' = keys2) as -> by congruence. clear keys1' Hk1' Hk2'.
  assert (fixCommands_of keys1 = fixCommands_of keys2) as Hcmds.
  { apply document_inj; [| |done]; apply list.Forall_forall.
    - intros k [??]%elem_of_fixCommands_of. by apply Hlf1.
    - intros k [??]%elem_of_fixCommands_of. by apply Hlf2. }
  split; [done|]. intros k Hp.
  pose proof (elem_of_fixCommands_of k keys1) as E1.
  pose proof (elem_of_fixCommands_of k keys2) as E2.
  rewrite Hcmds in E1. tauto.
Qed.

Lemma document_determines_commands_witness :
  (generateHelpText (a_world (Parsed fix_manifest))).1
  = (generateHelpText (a_world (Parsed zeta_text_manifest))).1
  ∧ fixCommands_of fix_scripts.*1 = fixCommands_of zeta_text_scripts.*1.
Proof.
  assert ((generateHelpText (a_world (Parsed fix_manifest))).1
          = (generateHelpText (a_world (Parsed zeta_text_manifest))).1) as Hsame
    by (rewrite !generateHelpText_run; vm_compute; reflexivity).
  split; [exact Hsame|].
  apply (document_determines_commands (a_world (Parsed fix_manifest))
           (a_world (Parsed zeta_text_manifest)) _ _ eq_refl eq_refl);
    [| |exact Hsame].
  - intros k Hk _. revert k Hk. apply list.Forall_forall.
    apply (bool_decide_unpack _). vm_compute. exact I.
  - intros k Hk _. revert k Hk. apply list.Forall_forall.
    apply (bool_decide_unpack _). vm_compute. exact I.
Defined.

(** X4: names are copied without escaping.  A script whose name holds the
    end of one line and the start of the next is rendered as two commands:
    the manifest with the single name
    [a ++ "` - Run fix command\n- `/" ++ b] gives the document of the
    manifest with the two names [a] and [b] (both beginning with [fix:],
    neither in the description table). *)
Theorem unescaped_name_forges_lines w1 w2 a b :
  manifest_keys (manifest w1)
  = Normal [a ++ tpl "\` - Run fix command\n- \`/" ++ b] →
  manifest_keys (manifest w2) = Normal [a; b] →
  str "fix:" `prefix_of` a →
  str "fix:" `prefix_of` b →
  a ∉ COMMAND_DESCRIPTIONS.*1 →
  b ∉ COMMAND_DESCRIPTIONS.*1 →
  sort_le a b →
  (generateHelpText w1).1 = (generateHelpText w2).1.
Proof.
  intros Hk1 Hk2 Ha Hb Hta Htb Hab.
  set (forged := a ++ tpl "\` - Run fix command\n- \`/" ++ b) in *.
  assert (fixCommands_of [forged] = [forged]) as Hone.
  { unfold fixCommands_of. symmetry. apply sort_unique.
    - rewrite filter_cons_True; [done|].
      apply Is_true_true, startsWith_prefix. by apply prefix_app_r.
    - by repeat constructor. }
  assert (fixCommands_of [a; b] = [a; b]) as Htwo.
  { unfold fixCommands_of. symmetry. apply sort_unique.
    - rewrite !filter_cons_True; [done|..];
        by apply Is_true_true, startsWith_prefix.
    - by repeat constructor. }
  assert (forged ∉ COMMAND_DESCRIPTIONS.*1) as Htf.
  { assert (Forall (λ k : jsstring, 10 ∉ k) COMMAND_DESCRIPTIONS.*1) as Hall
      by (apply (bool_decide_unpack _); by vm_compute).
    rewrite list.Forall_forall in Hall. intros Hin%Hall. apply Hin.
    unfold forged. rewrite !elem_of_app. right. left.
    apply (bool_decide_unpack _). by vm_compute. }
  rewrite !generateHelpText_run, Hk1, Hk2. cbn [fst].
  rewrite Hone, Htwo, !document_unfold. do 3 f_equal.
  cbn [fmap list_fmap concat].
  rewrite (command_line_absent _ Htf), (command_line_absent _ Hta),
    (command_line_absent _ Htb).
  unfold command_line_with, forged. rewrite <- !app_assoc.
  apply (f_equal (app (tpl "- \`/"))), (f_equal (app a)).
  generalize (b ++ tpl "\` - " ++ str "Run fix command" ++ tpl "\n" ++ []).
  intros rest. vm_compute. reflexivity.
Qed.

Lemma unescaped_name_forges_lines_witness :
  manifest_keys (Parsed forged_manifest)
  = Normal [str "fix:a" ++ tpl "\` - Run fix command\n- \`/" ++ str "fix:b"]
  ∧ manifest_keys (Parsed a_b_manifest) = Normal [str "fix:a"; str "fix:b"]
  ∧ (generateHelpText (a_world (Parsed forged_manifest))).1
    = (generateHelpText (a_world (Parsed a_b_manifest))).1.
Proof.
  assert (manifest_keys (Parsed forged_manifest)
          = Normal [str "fix:a" ++ tpl "\` - Run fix command\n- \`/"
                    ++ str "fix:b"]) as Hforged
    by (vm_compute; reflexivity).
  split_and!; [exact Hforged|reflexivity|].
  apply (unescaped_name_forges_lines (a_world (Parsed forged_manifest))
           (a_world (Parsed a_b_manifest)) (str "fix:a") (str "fix:b")).
  - exact Hforged.
  - reflexivity.
  - apply (bool_decide_unpack _). vm_compute. exact I.
  - apply (bool_decide_unpack _). vm_compute. exact I.
  - apply (bool_decide_unpack _). vm_compute. exact I.
  - apply (bool_decide_unpack _). vm_compute. exact I.
  - apply (bool_decide_unpack _). vm_compute. exact I.
Defined.

(** ** One line per command *)

Lemma line_feeds_app a b : line_feeds (a ++ b) = (line_feeds a + line_feeds b)%nat.
Proof. unfold line_feeds. by rewrite list.filter_app, length_app. Qed.

Lemma line_feeds_command_line cmd : 10 ∉ cmd → line_feeds (command_line cmd) = 1%nat.
Proof.
  intros (body & -> & Hbody)%command_line_single.
  rewrite line_feeds_app. unfold line_feeds at 1.
  replace (filter (λ c, c = 10) body) with (@nil N); [done|].
  symmetry. apply elem_of_nil_inv. intros c [-> Hc]%list_elem_of_filter. done.
Qed.

Lemma line_feeds_command_lines cmds :
  Forall (λ cmd, 10 ∉ cmd) cmds →
  line_feeds (concat (command_line <$> cmds)) = length cmds.
Proof.
  induction 1 as [|cmd cmds Hcmd _ IH]; [done|].
  cbn [fmap list_fmap concat length].
  by rewrite line_feeds_app, line_feeds_command_line, IH.
Qed.

(** X5: when no name that begins with [fix:] holds a line feed, the
    document has one line for each of these names besides its 56 fixed
    lines. *)
Theorem one_line_per_command w keys :
  manifest_keys (manifest w) = Normal keys →
  (∀ k, k ∈ keys → str "fix:" `prefix_of` k → 10 ∉ k) →
  ∃ out,
    (generateHelpText w).1 = Normal out
    ∧ line_feeds out
      = (56 + length (filter (λ script, startsWith script (str "fix:")) keys))%nat.
Proof.
  intros Hk Hlf. exists (document (fixCommands_of keys)).
  rewrite generateHelpText_run, Hk. split; [done|].
  rewrite document_unfold, !line_feeds_app, line_feeds_command_lines.
  - change (line_feeds preamble) with 8%nat.
    change (line_feeds static_sections) with 48%nat.
    unfold fixCommands_of. rewrite sort_Permutation. lia.
  - apply list.Forall_forall. intros k [??]%elem_of_fixCommands_of. by apply Hlf.
Qed.

Lemma one_line_per_command_witness :
  manifest_keys (Parsed fix_manifest) = Normal fix_scripts.*1
  ∧ ∃ out,
      (generateHelpText (a_world (Parsed fix_manifest))).1 = Normal out
      ∧ line_feeds out = 58%nat.
Proof.
  split; [reflexivity|].
  destruct (one_line_per_command (a_world (Parsed fix_manifest))
              fix_scripts.*1 eq_refl) as (out & Hout & Hlines).
  - intros k Hk _. revert k Hk. apply list.Forall_forall.
    apply (bool_decide_unpack _). vm_compute. exact I.
  - exists out. split; [exact Hout|]. rewrite Hlines. reflexivity.
Defined.

(** ** The place of a command in the list *)

Lemma str_ltb_extension a s : s ≠ [] → str_ltb a (a ++ s) = true.
Proof.
  intros Hs. induction a as [|c a IH]; simpl.
  - by destruct s.
  - by rewrite N.ltb_irrefl.
Qed.

Lemma StronglySorted_before {A} (R : relation A) l x y :
  StronglySorted R l → (∀ u v, R u v → ¬ R v u) →
  x ∈ l → y ∈ l → R x y →
  ∃ l1 l2 l3, l = l1 ++ x :: l2 ++ y :: l3.
Proof.
  intros Hl Hasym Hx Hy Hxy.
  apply list_elem_of_split in Hx as (l1 & r & ->).
  apply elem_of_app in Hy as [Hy|Hy].
  - destruct (Hasym _ _ Hxy).
    apply (StronglySorted_app_1_elem_of R l1 (x :: r)); [done..|by left].
  - apply elem_of_cons in Hy as [->|Hy]; [by destruct (Hasym _ _ Hxy)|].
    apply list_elem_of_split in Hy as (l2 & l3 & ->). by exists l1, l2, l3.
Qed.

(** X6: in the command list a name stands before every longer name it
    begins, whatever the order of the manifest and of the description
    table: [fix:i18n] before [fix:i18n:new], [fix:refcache] before
    [fix:refcache:refresh]. *)
Theorem shorter_name_listed_first w keys a s :
  manifest_keys (manifest w) = Normal keys →
  NoDup keys →
  str "fix:" `prefix_of` a →
  a ∈ keys →
  a ++ s ∈ keys →
  s ≠ [] →
  ∃ l1 l2 l3,
    (generateHelpText w).1 = Normal (document (l1 ++ a :: l2 ++ (a ++ s) :: l3)).
Proof.
  intros Hk Hnd Hp Ha Has Hs.
  destruct (StronglySorted_before str_lt (fixCommands_of keys) a (a ++ s))
    as (l1 & l2 & l3 & Hsplit).
  - by apply fixCommands_of_strict.
  - intros u v Huv Hvu. unfold str_lt in *.
    by rewrite (str_ltb_asym _ _ Huv) in Hvu.
  - by apply elem_of_fixCommands_of.
  - apply elem_of_fixCommands_of. split; [done|]. by apply prefix_app_r.
  - by apply str_ltb_extension.
  - exists l1, l2, l3. by rewrite generateHelpText_run, Hk, Hsplit.
Qed.

Lemma shorter_name_listed_first_witness :
  manifest_keys (Parsed i18n_manifest) = Normal i18n_scripts.*1
  ∧ ∃ l1 l2 l3,
      (generateHelpText (a_world (Parsed i18n_manifest))).1
      = Normal (document (l1 ++ str "fix:i18n" :: l2
                          ++ (str "fix:i18n" ++ str ":new") :: l3)).
Proof.
  split; [reflexivity|].
  apply (shorter_name_listed_first (a_world (Parsed i18n_manifest))
           i18n_scripts.*1 (str "fix:i18n") (str ":new")).
  - reflexivity.
  - apply (bool_decide_unpack _). vm_compute. exact I.
  - apply (bool_decide_unpack _). vm_compute. exact I.
  - apply (bool_decide_unpack _). vm_compute. exact I.
  - apply (bool_decide_unpack _). vm_compute. exact I.
  - apply (bool_decide_unpack _). vm_compute. exact I.
Defined.



